(** * PlaylistLoader: loading, resolving and saving playlists

    A shallow embedding of [src/libraries/playlist/PlaylistLoader.ts]
    (beatlist).  Buffers are lists of bytes, strings are Rocq strings, the
    file system is a finite map from paths to contents, and the asynchronous
    fan-out of [ConvertToPlaylistLocal] is a small-step machine whose runs
    are the interleavings the JavaScript event loop allows. *)

From Stdlib Require Import ZArith NArith Ascii String List Lia.
From Stdlib Require Import HexadecimalString HexadecimalN.
From stdpp Require Import base option list gmap strings fin_maps relations.

Local Open Scope Z_scope.
Local Open Scope string_scope.

(** ** Buffers, hexadecimal text and numbers *)

Module Hex.

Definition Buffer := list Byte.byte.

(** One hexadecimal digit of [Buffer.prototype.toString('hex')]. *)
Definition digit (n : N) : ascii :=
  match n with
  | 0 => "0" | 1 => "1" | 2 => "2" | 3 => "3" | 4 => "4" | 5 => "5"
  | 6 => "6" | 7 => "7" | 8 => "8" | 9 => "9" | 10 => "a" | 11 => "b"
  | 12 => "c" | 13 => "d" | 14 => "e" | _ => "f"
  end%N%char.

(** The value of a hexadecimal digit, either case, as the hex decoder of
    [Buffer.from] reads it; [None] for any other character. *)
Definition unhex (c : ascii) : option N :=
  let n := N_of_ascii c in
  if ((48 <=? n) && (n <=? 57))%N then Some (n - 48)%N
  else if ((97 <=? n) && (n <=? 102))%N then Some (n - 87)%N
  else if ((65 <=? n) && (n <=? 70))%N then Some (n - 55)%N
  else None.

(** [buffer.toString('hex')]: two lowercase digits per byte. *)
Fixpoint toString_hex (b : Buffer) : string :=
  match b with
  | [] => EmptyString
  | x :: rest =>
      String (digit (Byte.to_N x / 16)) (String (digit (Byte.to_N x mod 16)) (toString_hex rest))
  end.

(** [Buffer.from(s, 'hex')]: pairs of digits are decoded from the left;
    decoding stops at the first pair that is not two hexadecimal digits,
    and a trailing single character is ignored. *)
Fixpoint from_hex (s : string) : Buffer :=
  match s with
  | String a (String b rest) =>
      match unhex a, unhex b with
      | Some hi, Some lo =>
          match Byte.of_N (hi * 16 + lo) with
          | Some x => x :: from_hex rest
          | None => []
          end
      | _, _ => []
      end
  | _ => []
  end.

(** [String.prototype.toLowerCase] on the characters a hash can hold. *)
Definition lower (c : ascii) : ascii :=
  let n := N_of_ascii c in
  if ((65 <=? n) && (n <=? 90))%N then ascii_of_N (n + 32) else c.

Fixpoint toLowerCase (s : string) : string :=
  match s with
  | EmptyString => EmptyString
  | String c rest => String (lower c) (toLowerCase rest)
  end.

(** [Number.prototype.toString(16)] on a non-negative integer. *)
Definition toString16 (n : N) : string :=
  NilZero.string_of_uint (N.to_hex_uint n).

(** Reading a hexadecimal numeral back. *)
Definition parse16 (s : string) : option N :=
  N.of_hex_uint <$> NilZero.uint_of_string s.

Definition is_lower_hex_char (c : ascii) : bool :=
  let n := N_of_ascii c in
  (((48 <=? n) && (n <=? 57)) || ((97 <=? n) && (n <=? 102)))%N.

Fixpoint all_chars (p : ascii -> bool) (s : string) : bool :=
  match s with
  | EmptyString => true
  | String c rest => p c && all_chars p rest
  end.

Definition is_hex_char (c : ascii) : bool :=
  match unhex c with
  | Some _ => true
  | None => false
  end.

(** A string the hex decoder reads to its end: digits of either case, an
    even number of them. *)
Fixpoint is_hex_text (s : string) : bool :=
  match s with
  | EmptyString => true
  | String a (String b rest) => is_hex_char a && is_hex_char b && is_hex_text rest
  | String _ EmptyString => false
  end.

(** A string the hex encoder can have produced: lowercase digits, an even
    number of them. *)
Fixpoint is_hex_encoding (s : string) : bool :=
  match s with
  | EmptyString => true
  | String a (String b rest) =>
      is_lower_hex_char a && is_lower_hex_char b && is_hex_encoding rest
  | String _ EmptyString => false
  end.

End Hex.

Import Hex.

(** ** Data model *)

(** Timestamps ([Date]) are compared and copied only. *)
Definition Date := Z.

(** blister.js: the tag of a map reference; [Other] is any tag value the
    resolver's switch does not list. *)
Module BeatmapType.
Inductive t := Key | Hash | Zip | LevelID | Other (raw : string).
End BeatmapType.

(** blister.js [IBeatmap]: a tagged union, one payload per tag. *)
Module IBeatmap.
Inductive t :=
| OfKey (dateAdded : Date) (key : N)
| OfHash (dateAdded : Date) (hash : Buffer)
| OfZip (dateAdded : Date) (bytes : Buffer)
| OfLevelID (dateAdded : Date) (levelID : string)
| OfOther (dateAdded : Date) (raw : string).

Definition dateAdded (m : t) : Date :=
  match m with
  | OfKey d _ | OfHash d _ | OfZip d _ | OfLevelID d _ | OfOther d _ => d
  end.

Definition type (m : t) : BeatmapType.t :=
  match m with
  | OfKey _ _ => BeatmapType.Key
  | OfHash _ _ => BeatmapType.Hash
  | OfZip _ _ => BeatmapType.Zip
  | OfLevelID _ _ => BeatmapType.LevelID
  | OfOther _ raw => BeatmapType.Other raw
  end.
End IBeatmap.

(** blister.js [IPlaylist], the canonical playlist. *)
Module IPlaylist.
Record t := {
  title : string;
  author : string;
  description : option string;
  cover : option Buffer;
  maps : list IBeatmap.t
}.
End IPlaylist.

(** The catalog entry.  Modelled from the spec: [BeatsaverBeatmap] is
    declared outside this file; the loader reads its [hash] only, [key]
    stands for the rest of the entry. *)
Module BeatsaverBeatmap.
Record t := { key : string; hash : string }.
End BeatsaverBeatmap.

Module PlaylistMapImportError.
Inductive t :=
| BeatmapTypeZipNotSupported
| BeatmapTypeLevelIdNotSupported
| BeatmapTypeUnknown.
End PlaylistMapImportError.

(** The [online] field of a loaded map: never assigned, assigned [null]
    (looked up, not found), or a catalog entry. *)
Inductive Online :=
| undefined
| null
| entry (e : BeatsaverBeatmap.t).

Module PlaylistLocalMap.
Record t := {
  dateAdded : Date;
  online : Online;
  error : option PlaylistMapImportError.t
}.

Definition set_online (o : Online) (m : t) : t :=
  {| dateAdded := dateAdded m; online := o; error := error m |}.

Definition set_error (e : PlaylistMapImportError.t) (m : t) : t :=
  {| dateAdded := dateAdded m; online := online m; error := Some e |}.
End PlaylistLocalMap.

Module PlaylistLocal.
Record t := {
  title : string;
  author : string;
  description : option string;
  cover : option Buffer;
  path : option string;
  maps : list PlaylistLocalMap.t
}.

Definition set_path (p : string) (l : t) : t :=
  {| title := title l; author := author l; description := description l;
     cover := cover l; path := Some p; maps := maps l |}.
End PlaylistLocal.

(** Modelled from the spec: the progress sink, a mutable object with a
    status, a total and a running count ([Progress] is declared outside
    this file). *)
Module ProgressStatus.
Inductive t := NotStarted | Running | Completed.
End ProgressStatus.

Module Progress.
Record t := { status : ProgressStatus.t; total : Z; done : Z }.

Definition set_status (s : ProgressStatus.t) (p : t) : t :=
  {| status := s; total := total p; done := done p |}.

Definition set_total (n : Z) (p : t) : t :=
  {| status := status p; total := n; done := done p |}.

(** [progress.done += 1] *)
Definition incr_done (p : t) : t :=
  {| status := status p; total := total p; done := done p + 1 |}.
End Progress.

(** ** External collaborators *)

(** [BeatSaverAPI.Singleton]: a miss is [None] ([undefined]). *)
Class Catalog := {
  getBeatmapByKey : string -> option BeatsaverBeatmap.t;
  getBeatmapByHash : string -> option BeatsaverBeatmap.t
}.

(** blister.js: the marker check throws on a bad marker ([false] here),
    decoding and encoding can fail ([None]). *)
Class Serializer := {
  validateMagicNumber : Buffer -> bool;
  deserialize : Buffer -> option IPlaylist.t;
  serialize : IPlaylist.t -> option Buffer
}.

(** [JSON.parse] and blister.js's [convertLegacyPlaylist]; either can
    throw ([None]). *)
Class LegacyReader := {
  ILegacyPlaylist : Type;
  JSON_parse : string -> option ILegacyPlaylist;
  convertLegacyPlaylist : ILegacyPlaylist -> option IPlaylist.t
}.

(** Node's [path]: the loader reads [dir] and [name] of a parsed path. *)
Record ParsedPath := { dir : string; name : string }.

Class PathLib := {
  path_parse : string -> ParsedPath;
  path_join : string -> string -> string
}.

(** [new Progress()]: the state of a fresh sink is fixed by the [Progress]
    class, which is declared outside this file. *)
Class ProgressClass := { new_Progress : Progress.t }.

(** ** The file system and the effects of the loader *)

(** fs-extra, whole-buffer operations.  [files] maps each existing path to
    its contents; a write to a path in [unwritable] fails, which stands for
    any I/O error of [writeFile]. *)
Record FileSystem := {
  files : gmap string Buffer;
  unwritable : gset string
}.

Inductive Exception :=
| InvalidMagicNumber
| DeserializeError
| SerializeError
| SyntaxError
| ConvertError
| ENOENT
| EACCES.

(** How a call ends: with a value, or with an exception (a rejected
    promise for an [async] function). *)
Inductive Completion (A : Type) :=
| Return (a : A)
| Throw (e : Exception).
Arguments Return {A} a.
Arguments Throw {A} e.

(** Computations over the file system that may throw. *)
Definition M (A : Type) : Type := FileSystem -> Completion A * FileSystem.

#[global] Instance M_ret : MRet M := fun A a w => (Return a, w).

#[global] Instance M_bind : MBind M := fun A B k m w =>
  match m w with
  | (Return a, w') => k a w'
  | (Throw e, w') => (Throw e, w')
  end.

Definition throw {A : Type} (e : Exception) : M A := fun w => (Throw e, w).

(** [try { body } catch (e) { handler }] *)
Definition try_catch {A : Type} (body : M A) (handler : Exception -> M A) : M A :=
  fun w =>
    match body w with
    | (Return a, w') => (Return a, w')
    | (Throw e, w') => handler e w'
    end.

(** A collaborator's result, thrown as [e] when it fails. *)
Definition orThrow {A : Type} (e : Exception) (r : option A) : M A :=
  match r with
  | Some a => mret a
  | None => throw e
  end.

Definition fs_pathExists (p : string) : M bool :=
  fun w => (Return (bool_decide (is_Some (files w !! p))), w).

Definition fs_readFile (p : string) : M Buffer :=
  fun w => orThrow ENOENT (files w !! p) w.

Definition fs_writeFile (p : string) (data : Buffer) : M unit :=
  fun w =>
    if bool_decide (p ∈ unwritable w) then (Throw EACCES, w)
    else (Return tt, {| files := <[p := data]> (files w); unwritable := unwritable w |}).

Definition fs_unlink (p : string) : M unit :=
  fun w =>
    match files w !! p with
    | Some _ => (Return tt, {| files := delete p (files w); unwritable := unwritable w |})
    | None => (Throw ENOENT, w)
    end.

Definition PLAYLIST_EXTENSION_NAME : string := "blist".

(** ** The resolver's tasks *)

(** The catalog request a suspended task waits for. *)
Inductive Lookup :=
| ByKey (hex : string)
| ByHash (hex : string).

(** One [async] callback of [playlist.maps.map]: suspended at its [await]
    with the map built so far, or finished with the map it returns. *)
Inductive Task :=
| Awaiting (map : PlaylistLocalMap.t) (request : Lookup)
| Settled (map : PlaylistLocalMap.t).

(** The resolver between the start of the fan-out and its return. *)
Record Resolver := {
  queue : list IBeatmap.t;
  tasks : list Task;
  sink : Progress.t
}.

Inductive Config :=
| Pending (r : Resolver)
| Returned (output : PlaylistLocal.t) (progress : Progress.t).

Definition settled (t : Task) : bool :=
  match t with
  | Settled _ => true
  | Awaiting _ _ => false
  end.

(** The maps [Promise.all] hands back, once every task has settled. *)
Fixpoint joined (ts : list Task) : option (list PlaylistLocalMap.t) :=
  match ts with
  | [] => Some []
  | Settled m :: rest => cons m <$> joined rest
  | Awaiting _ _ :: _ => None
  end.

(** ** PlaylistLoader *)

Section PlaylistLoader.

Context {catalog : Catalog} {blister : Serializer} {legacy : LegacyReader}
  {pathlib : PathLib} {progressClass : ProgressClass}.

(** *** IsOldFormat *)

Definition IsOldFormat (buffer : Buffer) : M bool :=
  try_catch
    (_ ← (if validateMagicNumber buffer then mret tt else throw InvalidMagicNumber);
     mret false)
    (fun _ => mret true).

(** *** ConvertToPlaylistLocal *)

(** The catalog's answer to a request. *)
Definition answer (request : Lookup) : option BeatsaverBeatmap.t :=
  match request with
  | ByKey hex => getBeatmapByKey hex
  | ByHash hex => getBeatmapByHash hex
  end.

(** [result || null] *)
Definition orNull (result : option BeatsaverBeatmap.t) : Online :=
  match result with
  | Some e => entry e
  | None => null
  end.

(** The callback up to its first [await]: the map is created, the switch
    taken; the Key and Hash cases issue their request and suspend, the
    other cases run to the end of the callback. *)
Definition start (mapToConvert : IBeatmap.t) (progress : Progress.t) : Task * Progress.t :=
  let map := {| PlaylistLocalMap.dateAdded := IBeatmap.dateAdded mapToConvert;
                PlaylistLocalMap.online := undefined;
                PlaylistLocalMap.error := None |} in
  match mapToConvert with
  | IBeatmap.OfKey _ key =>
      (Awaiting map (ByKey (toString16 key)), progress)
  | IBeatmap.OfHash _ hash =>
      (Awaiting map (ByHash (toString_hex hash)), progress)
  | IBeatmap.OfZip _ _ =>
      (Settled (PlaylistLocalMap.set_error PlaylistMapImportError.BeatmapTypeZipNotSupported map),
       Progress.incr_done progress)
  | IBeatmap.OfLevelID _ _ =>
      (Settled (PlaylistLocalMap.set_error PlaylistMapImportError.BeatmapTypeLevelIdNotSupported map),
       Progress.incr_done progress)
  | IBeatmap.OfOther _ _ =>
      (Settled (PlaylistLocalMap.set_error PlaylistMapImportError.BeatmapTypeUnknown map),
       Progress.incr_done progress)
  end.

(** The callback from its [await] on: the answer is stored, the count
    incremented, the map returned. *)
Definition resume (map : PlaylistLocalMap.t) (request : Lookup) (progress : Progress.t)
  : Task * Progress.t :=
  (Settled (PlaylistLocalMap.set_online (orNull (answer request)) map),
   Progress.incr_done progress).

(** Lines 75 to 83: the sink is set to running with the map count, nothing
    is dispatched yet. *)
Definition begin (playlist : IPlaylist.t) (progress : Progress.t) : Resolver :=
  {| queue := IPlaylist.maps playlist;
     tasks := [];
     sink :=
       Progress.set_total (Z.of_nat (length (IPlaylist.maps playlist)))
         (Progress.set_status ProgressStatus.Running progress) |}.

(** Lines 117 and 118, with the metadata copied at lines 77 to 80. *)
Definition finish (playlist : IPlaylist.t) (maps : list PlaylistLocalMap.t)
    (progress : Progress.t) : PlaylistLocal.t * Progress.t :=
  ({| PlaylistLocal.title := IPlaylist.title playlist;
      PlaylistLocal.author := IPlaylist.author playlist;
      PlaylistLocal.description := IPlaylist.description playlist;
      PlaylistLocal.cover := IPlaylist.cover playlist;
      PlaylistLocal.path := None;
      PlaylistLocal.maps := maps |},
   Progress.set_status ProgressStatus.Completed progress).

(** The steps of the event loop.  [map] calls the callbacks one after the
    other, each up to its [await]; only then can a suspended callback be
    resumed, in whatever order the catalog answers; [Promise.all] hands the
    maps back once every callback has returned. *)
Inductive step (playlist : IPlaylist.t) : Config -> Config -> Prop :=
| step_dispatch m q ts p :
    step playlist
      (Pending {| queue := m :: q; tasks := ts; sink := p |})
      (Pending {| queue := q; tasks := ts ++ [(start m p).1]; sink := (start m p).2 |})
| step_resume i map request ts p :
    ts !! i = Some (Awaiting map request) ->
    step playlist
      (Pending {| queue := []; tasks := ts; sink := p |})
      (Pending {| queue := []; tasks := <[i := (resume map request p).1]> ts;
                  sink := (resume map request p).2 |})
| step_join ts p maps :
    joined ts = Some maps ->
    step playlist
      (Pending {| queue := []; tasks := ts; sink := p |})
      (Returned (finish playlist maps p).1 (finish playlist maps p).2).

(** The synchronous pass of [map] over the queue. *)
Fixpoint dispatch (queue : list IBeatmap.t) (tasks : list Task) (progress : Progress.t)
  : list Task * Progress.t :=
  match queue with
  | [] => (tasks, progress)
  | m :: rest => dispatch rest (tasks ++ [(start m progress).1]) (start m progress).2
  end.

(** The suspended callbacks resumed in the order of their entries. *)
Fixpoint drain (tasks : list Task) (progress : Progress.t) : list Task * Progress.t :=
  match tasks with
  | [] => ([], progress)
  | Settled m :: rest =>
      let r := drain rest progress in (Settled m :: r.1, r.2)
  | Awaiting m request :: rest =>
      let t := resume m request progress in
      let r := drain rest t.2 in (t.1 :: r.1, r.2)
  end.

(** The resolver run to its return, with the output and the final state of
    the sink; [progress] is the caller's sink, or [None] when the caller
    passes none. *)
Definition ConvertToPlaylistLocal (playlist : IPlaylist.t) (progress : option Progress.t)
  : PlaylistLocal.t * Progress.t :=
  let r := begin playlist (default new_Progress progress) in
  let d := dispatch (queue r) (tasks r) (sink r) in
  let a := drain d.1 d.2 in
  finish playlist (default [] (joined a.1)) a.2.

(** *** ConvertToPlaylistBlister *)

(** [map.online?.hash || ''] *)
Definition hashOrEmpty (o : Online) : string :=
  match o with
  | entry e => if String.eqb (BeatsaverBeatmap.hash e) "" then "" else BeatsaverBeatmap.hash e
  | _ => ""
  end.

(** The callback of [playlist.maps.map]; [None] is its [undefined]. *)
Definition toBlisterMap (map : PlaylistLocalMap.t) : option IBeatmap.t :=
  match PlaylistLocalMap.online map with
  | undefined => None
  | o =>
      Some (IBeatmap.OfHash (PlaylistLocalMap.dateAdded map)
              (from_hex (toLowerCase (hashOrEmpty o))))
  end.

(** [.filter((map) => map !== undefined)] *)
Fixpoint filterDefined {A : Type} (l : list (option A)) : list A :=
  match l with
  | [] => []
  | Some a :: rest => a :: filterDefined rest
  | None :: rest => filterDefined rest
  end.

Definition ConvertToPlaylistBlister (playlist : PlaylistLocal.t) : IPlaylist.t :=
  {| IPlaylist.title := PlaylistLocal.title playlist;
     IPlaylist.author := PlaylistLocal.author playlist;
     IPlaylist.description := PlaylistLocal.description playlist;
     IPlaylist.cover := PlaylistLocal.cover playlist;
     IPlaylist.maps := filterDefined (List.map toBlisterMap (PlaylistLocal.maps playlist)) |}.

(** *** Save *)

Definition Save (filepath : string) (playlist : PlaylistLocal.t) : M bool :=
  try_catch
    (blisterPlaylist ← mret (ConvertToPlaylistBlister playlist);
     buffer ← orThrow SerializeError (serialize blisterPlaylist);
     _ ← fs_writeFile filepath buffer;
     mret true)
    (fun _ => mret false).

(** *** ConvertPlaylistFile *)

Definition newFilepathOf (filepath : string) : string :=
  let filename := name (path_parse filepath) ++ "." ++ PLAYLIST_EXTENSION_NAME in
  path_join (dir (path_parse filepath)) filename.

Definition ConvertPlaylistFile (filepath : string) (playlist : PlaylistLocal.t) : M unit :=
  let newFilepath := newFilepathOf filepath in
  done ← Save newFilepath playlist;
  if done : bool then fs_unlink filepath else mret tt.

(** *** Load *)

(** Lines 28 to 37: the canonical playlist read from the buffer; [None] is
    the [return undefined] of the catch clause. *)
Definition readPlaylist (oldFormat : bool) (buffer : Buffer) : M (option IPlaylist.t) :=
  if oldFormat then
    try_catch
      (legacyPlaylist ← orThrow SyntaxError (JSON_parse (string_of_list_byte buffer));
       playlist ← orThrow ConvertError (convertLegacyPlaylist legacyPlaylist);
       mret (Some playlist))
      (fun _ => mret None)
  else
    playlist ← orThrow DeserializeError (deserialize buffer);
    mret (Some playlist).

(** The sink is written by [ConvertToPlaylistLocal] only; its final state
    is the second component there. *)
Definition Load (filepath : string) (forceConvertIfNeeded : bool)
    (progress : option Progress.t) : M (option PlaylistLocal.t) :=
  present ← fs_pathExists filepath;
  if negb present then mret None
  else
    buffer ← fs_readFile filepath;
    oldFormat ← IsOldFormat buffer;
    read ← readPlaylist oldFormat buffer;
    match read with
    | None => mret None
    | Some playlist =>
        let output := (ConvertToPlaylistLocal playlist progress).1 in
        _ ← (if oldFormat && forceConvertIfNeeded
             then ConvertPlaylistFile filepath output
             else mret tt);
        mret (Some (PlaylistLocal.set_path filepath output))
    end.

End PlaylistLoader.

(** ** What a task amounts to *)

Section Outcomes.

Context {catalog : Catalog}.

(** The map a task returns, whenever it gets to return. *)
Definition outcome (t : Task) : PlaylistLocalMap.t :=
  match t with
  | Settled m => m
  | Awaiting m request => (PlaylistLocalMap.set_online (orNull (answer request)) m)
  end.

(** The task of an entry once [map] has called its callback; the sink it
    is started with does not matter. *)
Definition started (m : IBeatmap.t) : Task :=
  (start m {| Progress.status := ProgressStatus.NotStarted;
              Progress.total := 0; Progress.done := 0 |}).1.

(** The map the callback returns for an entry. *)
Definition resolved (m : IBeatmap.t) : PlaylistLocalMap.t := outcome (started m).

(** The number of callbacks that have returned. *)
Definition completed (ts : list Task) : nat := length (filter (fun t => settled t = true) ts).


(** The sink after [k] more increments. *)
Definition add_done (k : nat) (p : Progress.t) : Progress.t :=
  {| Progress.status := Progress.status p;
     Progress.total := Progress.total p;
     Progress.done := Progress.done p + Z.of_nat k |}.




(** The projection in the spec's words: a map is kept when its [online] is
    present, null or resolved. *)
Definition isPresent (m : PlaylistLocalMap.t) : bool :=
  match PlaylistLocalMap.online m with
  | undefined => false
  | _ => true
  end.

(** The projection in the spec's words: a kept map becomes a Hash-tagged
    entry with its date and the entry's hash, lowercased and decoded from
    hex; a null entry has no hash text to decode. *)
Definition hashEntry (m : PlaylistLocalMap.t) : IBeatmap.t :=
  IBeatmap.OfHash (PlaylistLocalMap.dateAdded m)
    match PlaylistLocalMap.online m with
    | entry e => from_hex (toLowerCase (BeatsaverBeatmap.hash e))
    | _ => []
    end.

(** A map is resolved to an entry the catalog serves: the entry's hash is
    the hex text of a content hash, in either case, and looking that hash
    up, in the lowercase form the resolver asks with, gives an entry with
    the same hash. *)
Definition catalogServes (m : PlaylistLocalMap.t) : Prop :=
  exists e, PlaylistLocalMap.online m = entry e /\
    is_hex_text (BeatsaverBeatmap.hash e) = true /\
    exists e', getBeatmapByHash (toLowerCase (BeatsaverBeatmap.hash e)) = Some e' /\
      BeatsaverBeatmap.hash e' = BeatsaverBeatmap.hash e.

(** The date and hash of a loaded map, the hash of an unresolved map being
    absent. *)
Definition dateAndHash (m : PlaylistLocalMap.t) : Date * option string :=
  (PlaylistLocalMap.dateAdded m,
   match PlaylistLocalMap.online m with
   | entry e => Some (BeatsaverBeatmap.hash e)
   | _ => None
   end).


End Outcomes.

(** ** A small environment to run the loader in *)

Module Sample.

Definition song : BeatsaverBeatmap.t :=
  {| BeatsaverBeatmap.key := "1f"; BeatsaverBeatmap.hash := "ab12" |}.

(** A catalog with one entry, found by its key and by its hash. *)
Definition catalog : Catalog :=
  {| getBeatmapByKey := fun k => if String.eqb k "1f" then Some song else None;
     getBeatmapByHash := fun h => if String.eqb h "ab12" then Some song else None |}.

Definition canonical : IPlaylist.t :=
  {| IPlaylist.title := "Favourites";
     IPlaylist.author := "me";
     IPlaylist.description := None;
     IPlaylist.cover := None;
     IPlaylist.maps := [IBeatmap.OfHash 1700000000 [Byte.xab; Byte.x12]] |}.

Definition image : Buffer := [Byte.x42; Byte.x01].

Definition isCanonical (c : IPlaylist.t) : bool :=
  String.eqb (IPlaylist.title c) "Favourites" && String.eqb (IPlaylist.author c) "me" &&
  match IPlaylist.description c, IPlaylist.cover c, IPlaylist.maps c with
  | None, None, [IBeatmap.OfHash d [Byte.xab; Byte.x12]] => Z.eqb d 1700000000
  | _, _, _ => false
  end.

(** A serializer that knows one playlist: the marker is the first byte,
    [image] decodes to [canonical], and only [canonical] encodes. *)
Definition blister : Serializer :=
  {| validateMagicNumber := fun b => match b with Byte.x42 :: _ => true | _ => false end;
     deserialize := fun b =>
       match b with
       | [Byte.x42; Byte.x01] => Some canonical
       | _ => None
       end;
     serialize := fun c => if isCanonical c then Some image else None |}.

Definition legacyText : string := "{songs:[AB12]}".

(** A legacy reader that knows one text, a list of song hashes. *)
Definition legacy : LegacyReader :=
  {| ILegacyPlaylist := list string;
     JSON_parse := fun s => if String.eqb s legacyText then Some ["AB12"] else None;
     convertLegacyPlaylist := fun songs =>
       Some {| IPlaylist.title := "Favourites";
               IPlaylist.author := "me";
               IPlaylist.description := None;
               IPlaylist.cover := None;
               IPlaylist.maps :=
                 List.map (fun h => IBeatmap.OfHash 1700000000 (from_hex h)) songs |} |}.

(** The last occurrence of [c] in [s]: the text before it and after it. *)
Fixpoint splitLast (c : ascii) (s : string) : option (string * string) :=
  match s with
  | EmptyString => None
  | String a rest =>
      match splitLast c rest with
      | Some (before, after) => Some (String a before, after)
      | None => if Ascii.eqb a c then Some (EmptyString, rest) else None
      end
  end.

(** Paths of the form [dir/name.ext], relative or absolute. *)
Definition pathlib : PathLib :=
  {| path_parse := fun p =>
       let (d, base) := match splitLast "/" p with
                        | Some (d, base) => (d, base)
                        | None => (EmptyString, p)
                        end in
       {| dir := d;
          name := match splitLast "." base with
                  | Some (n, _) => if String.eqb n "" then base else n
                  | None => base
                  end |};
     path_join := fun d f => if String.eqb d "" then f else d ++ "/" ++ f |}.

Definition progressClass : ProgressClass :=
  {| new_Progress := {| Progress.status := ProgressStatus.NotStarted;
                        Progress.total := 0; Progress.done := 0 |} |}.



Definition loaded : PlaylistLocal.t :=
  {| PlaylistLocal.title := "Favourites";
     PlaylistLocal.author := "me";
     PlaylistLocal.description := None;
     PlaylistLocal.cover := None;
     PlaylistLocal.path := Some "elsewhere.blist";
     PlaylistLocal.maps :=
       [{| PlaylistLocalMap.dateAdded := 1700000000;
           PlaylistLocalMap.online := entry song;
           PlaylistLocalMap.error := None |}] |}.

(** A disk with one legacy file, one legacy file cut short, one binary
    file and one file whose marker is valid and whose body is not. *)
Definition disk : FileSystem :=
  {| files := {[ "music/old.json" := list_byte_of_string legacyText;
                 "music/cut.json" := list_byte_of_string "{songs:";
                 "music/new.blist" := image;
                 "music/torn.blist" := [Byte.x42] ]};
     unwritable := {[ "locked/old.blist" ]} |}.



(** A loaded playlist with a map that was looked up and not found. *)
Definition withNull : PlaylistLocal.t :=
  {| PlaylistLocal.title := "Mixed";
     PlaylistLocal.author := "me";
     PlaylistLocal.description := None;
     PlaylistLocal.cover := None;
     PlaylistLocal.path := None;
     PlaylistLocal.maps :=
       [{| PlaylistLocalMap.dateAdded := 1;
           PlaylistLocalMap.online := entry song;
           PlaylistLocalMap.error := None |};
        {| PlaylistLocalMap.dateAdded := 6;
           PlaylistLocalMap.online := null;
           PlaylistLocalMap.error := None |}] |}.

End Sample.

(** ** Saving after loading, loading after saving *)

Section Compositions.

Context {catalog : Catalog}.

(** An entry the resolver looks up in the catalog. *)
Definition isLookup (m : IBeatmap.t) : bool :=
  match m with
  | IBeatmap.OfKey _ _ | IBeatmap.OfHash _ _ => true
  | _ => false
  end.

(** What the catalog returns for an entry, if it is looked up at all. *)
Definition found (m : IBeatmap.t) : option BeatsaverBeatmap.t :=
  match m with
  | IBeatmap.OfKey _ key => getBeatmapByKey (toString16 key)
  | IBeatmap.OfHash _ hash => getBeatmapByHash (toString_hex hash)
  | _ => None
  end.

(** The entry written for a looked-up entry when the playlist it was
    loaded into is saved: the hash of what the catalog returned, or no hash
    when it returned nothing. *)
Definition rehashed (m : IBeatmap.t) : IBeatmap.t :=
  IBeatmap.OfHash (IBeatmap.dateAdded m)
    (from_hex (toLowerCase
       match found m with
       | Some e => BeatsaverBeatmap.hash e
       | None => ""
       end)).

(** The map read back for a map that was saved: it is looked up under the
    hash that was written for it. *)
Definition reloaded (m : PlaylistLocalMap.t) : PlaylistLocalMap.t :=
  {| PlaylistLocalMap.dateAdded := PlaylistLocalMap.dateAdded m;
     PlaylistLocalMap.online :=
       orNull (getBeatmapByHash
                 (toString_hex (from_hex (toLowerCase (hashOrEmpty (PlaylistLocalMap.online m))))));
     PlaylistLocalMap.error := None |}.

(** A Hash entry the catalog knows under its own hash, up to case. *)
Definition servedByHash (m : IBeatmap.t) : Prop :=
  match m with
  | IBeatmap.OfHash _ hash =>
      exists e, getBeatmapByHash (toString_hex hash) = Some e /\
        toLowerCase (BeatsaverBeatmap.hash e) = toString_hex hash
  | _ => False
  end.

End Compositions.

(** A disk whose legacy file already has the binary extension. *)
Module Misnamed.

Definition disk : FileSystem :=
  {| files := {[ "music/list.blist" := list_byte_of_string Sample.legacyText;
                 "music/other.blist" := Sample.image ]};
     unwritable := ∅ |}.

(** A loaded playlist with one resolved map and one map in error. *)
Definition partly : PlaylistLocal.t :=
  {| PlaylistLocal.title := "Favourites";
     PlaylistLocal.author := "me";
     PlaylistLocal.description := None;
     PlaylistLocal.cover := None;
     PlaylistLocal.path := None;
     PlaylistLocal.maps :=
       [{| PlaylistLocalMap.dateAdded := 3;
           PlaylistLocalMap.online := undefined;
           PlaylistLocalMap.error := Some PlaylistMapImportError.BeatmapTypeZipNotSupported |};
        {| PlaylistLocalMap.dateAdded := 1700000000;
           PlaylistLocalMap.online := entry Sample.song;
           PlaylistLocalMap.error := None |}] |}.

End Misnamed.

(** ** Facts about hexadecimal text *)

Module HexFacts.

Lemma unhex_digit_pair (x : Byte.byte) :
  unhex (digit (Byte.to_N x / 16)) = Some (Byte.to_N x / 16)%N /\
  unhex (digit (Byte.to_N x mod 16)) = Some (Byte.to_N x mod 16)%N.
Proof. destruct x; split; reflexivity. Qed.

Lemma from_hex_toString_hex (b : Buffer) : from_hex (toString_hex b) = b.
Proof.
  induction b as [|x rest IH]; [reflexivity|].
  cbn [toString_hex from_hex].
  destruct (unhex_digit_pair x) as [-> ->].
  replace (Byte.to_N x / 16 * 16 + Byte.to_N x mod 16)%N with (Byte.to_N x)
    by (rewrite N.mul_comm; apply N.div_mod; discriminate).
  rewrite Byte.of_to_N. now rewrite IH.
Qed.

Lemma lower_digit (n : N) : lower (digit n) = digit n.
Proof.
  do 15 (destruct n as [|n] using N.peano_ind; [reflexivity|]).
  unfold digit.
  destruct (N.succ _) eqn:E; [reflexivity|].
  repeat (destruct p as [p|p|]; try reflexivity).
Qed.

Lemma toLowerCase_toString_hex (b : Buffer) :
  toLowerCase (toString_hex b) = toString_hex b.
Proof.
  induction b as [|x rest IH]; [reflexivity|].
  cbn [toString_hex toLowerCase]. now rewrite !lower_digit, IH.
Qed.

Lemma is_hex_encoding_toString_hex (b : Buffer) :
  is_hex_encoding (toString_hex b) = true.
Proof.
  induction b as [|x rest IH]; [reflexivity|].
  cbn [toString_hex is_hex_encoding]. rewrite IH.
  destruct x; reflexivity.
Qed.

(** A lowercase digit is its own lowercase form and the printed form of
    its value. *)
Lemma lower_hex_char_inv (c : ascii) :
  is_lower_hex_char c = true ->
  lower c = c /\ exists v, unhex c = Some v /\ (v < 16)%N /\ digit v = c.
Proof.
  destruct c as [[] [] [] [] [] [] [] []]; cbv; try discriminate; intros _;
    (split; [reflexivity|]); eexists; (split; [reflexivity|]);
    (split; reflexivity).
Qed.

Lemma of_N_nibbles (hi lo : N) :
  (hi < 16)%N -> (lo < 16)%N ->
  exists x, Byte.of_N (hi * 16 + lo) = Some x /\
    (Byte.to_N x / 16)%N = hi /\ (Byte.to_N x mod 16)%N = lo.
Proof.
  intros Hhi Hlo.
  destruct (Byte.of_N (hi * 16 + lo)) as [x|] eqn:E.
  - exists x. split; [reflexivity|].
    apply Byte.to_of_N in E. rewrite E. split.
    + rewrite N.div_add_l by discriminate. rewrite N.div_small by assumption. lia.
    + rewrite N.add_comm, N.Div0.mod_add. now apply N.mod_small.
  - apply Byte.of_N_None_iff in E. lia.
Qed.

(** Induction on a string two characters at a time. *)
Lemma string_pair_ind (P : string -> Prop) :
  P EmptyString ->
  (forall a, P (String a EmptyString)) ->
  (forall a b rest, P rest -> P (String a (String b rest))) ->
  forall s, P s.
Proof.
  intros Hnil Hone Htwo s.
  assert (H : P s /\ forall a, P (String a s)); [|exact (proj1 H)].
  induction s as [|b rest [IH1 IH2]]; split; auto.
Qed.

(** Decoding a well-formed hex text and printing it again gives it back. *)
Lemma toString_hex_from_hex (s : string) :
  is_hex_encoding s = true -> toString_hex (from_hex (toLowerCase s)) = s.
Proof.
  induction s as [|a|a b rest IH] using string_pair_ind; intros Hs;
    [reflexivity|discriminate|].
  cbn [is_hex_encoding] in Hs.
  apply andb_prop in Hs as [Hab Hrest]. apply andb_prop in Hab as [Ha Hb].
  destruct (lower_hex_char_inv a Ha) as [La (hi & Ua & Hhi & Da)].
  destruct (lower_hex_char_inv b Hb) as [Lb (lo & Ub & Hlo & Db)].
  destruct (of_N_nibbles hi lo Hhi Hlo) as (x & Ex & Dx & Mx).
  cbn [toLowerCase from_hex]. rewrite La, Lb, Ua, Ub, Ex.
  cbn [toString_hex]. rewrite Dx, Mx, Da, Db.
  now rewrite IH.
Qed.

Lemma lower_of_hex_char (c : ascii) :
  is_hex_char c = true -> is_lower_hex_char (lower c) = true.
Proof. destruct c as [[] [] [] [] [] [] [] []]; cbv; congruence. Qed.

Lemma is_hex_encoding_toLowerCase (s : string) :
  is_hex_text s = true -> is_hex_encoding (toLowerCase s) = true.
Proof.
  induction s as [|a|a b rest IH] using string_pair_ind; intros Hs;
    [reflexivity|discriminate|].
  cbn [is_hex_text] in Hs.
  apply andb_prop in Hs as [Hab Hrest]. apply andb_prop in Hab as [Ha Hb].
  cbn [toLowerCase is_hex_encoding].
  now rewrite (lower_of_hex_char a Ha), (lower_of_hex_char b Hb), IH.
Qed.

Lemma toLowerCase_hex_encoding (s : string) :
  is_hex_encoding s = true -> toLowerCase s = s.
Proof.
  induction s as [|a|a b rest IH] using string_pair_ind; intros Hs;
    [reflexivity|discriminate|].
  cbn [is_hex_encoding] in Hs.
  apply andb_prop in Hs as [Hab Hrest]. apply andb_prop in Hab as [Ha Hb].
  destruct (lower_hex_char_inv a Ha) as [La _].
  destruct (lower_hex_char_inv b Hb) as [Lb _].
  cbn [toLowerCase]. now rewrite La, Lb, IH.
Qed.

(** Decoding a hex text of either case and printing it again gives its
    lowercase form. *)
Lemma toString_hex_from_hex_lower (s : string) :
  is_hex_text s = true -> toString_hex (from_hex (toLowerCase s)) = toLowerCase s.
Proof.
  intros Hs. apply is_hex_encoding_toLowerCase in Hs.
  rewrite <- (toLowerCase_hex_encoding _ Hs) at 1.
  now apply toString_hex_from_hex.
Qed.

Lemma parse16_toString16 (n : N) : parse16 (toString16 n) = Some n.
Proof.
  unfold parse16, toString16.
  rewrite NilZero.usu.
  - cbn. now rewrite HexadecimalN.Unsigned.of_to.
  - destruct n as [|p]; [discriminate|]. apply HexadecimalPos.Unsigned.to_uint_nonnil.
Qed.

Lemma string_of_uint_lower_hex (d : Hexadecimal.uint) :
  all_chars is_lower_hex_char (NilEmpty.string_of_uint d) = true.
Proof. induction d; cbn [NilEmpty.string_of_uint all_chars]; try rewrite IHd; reflexivity. Qed.

Lemma toString16_lower_hex (n : N) :
  all_chars is_lower_hex_char (toString16 n) = true.
Proof.
  unfold toString16, NilZero.string_of_uint.
  destruct (N.to_hex_uint n) eqn:E; try reflexivity;
    rewrite <- E; apply string_of_uint_lower_hex.
Qed.

Example toString16_255 : toString16 255 = "ff".
Proof. reflexivity. Qed.

Example toString16_0 : toString16 0 = "0".
Proof. reflexivity. Qed.

Example from_hex_truncates : from_hex "abzzcd" = [Byte.xab] /\ from_hex "abc" = [Byte.xab].
Proof. split; reflexivity. Qed.

End HexFacts.

(** ** Facts about the resolver *)

Section ResolverFacts.

Context {catalog : Catalog} {progressClass : ProgressClass}.

Lemma add_done_0 (p : Progress.t) : add_done 0 p = p.
Proof. destruct p as [s t d]. unfold add_done. cbn. f_equal. lia. Qed.

Lemma add_done_add (j k : nat) (p : Progress.t) :
  add_done k (add_done j p) = add_done (j + k) p.
Proof. unfold add_done. cbn. f_equal. lia. Qed.

Lemma incr_done_add_done (k : nat) (p : Progress.t) :
  Progress.incr_done (add_done k p) = add_done (S k) p.
Proof. unfold add_done, Progress.incr_done. cbn. f_equal. lia. Qed.

Lemma start_task (m : IBeatmap.t) (p : Progress.t) : (start m p).1 = started m.
Proof. now destruct m. Qed.

Lemma start_sink (m : IBeatmap.t) (p : Progress.t) :
  (start m p).2 = add_done (completed [started m]) p.
Proof.
  destruct m; cbn; first [now rewrite add_done_0 | now rewrite <- (add_done_0 p) at 1; rewrite incr_done_add_done].
Qed.

Lemma completed_app (l1 l2 : list Task) :
  completed (l1 ++ l2)%list = (completed l1 + completed l2)%nat.
Proof. unfold completed. now rewrite filter_app, length_app. Qed.

Lemma completed_cons (t : Task) (l : list Task) :
  completed (t :: l) = ((if settled t then 1 else 0) + completed l)%nat.
Proof. unfold completed. destruct t; reflexivity. Qed.

Lemma completed_le (l : list Task) : (completed l <= length l)%nat.
Proof. apply length_filter. Qed.

Lemma dispatch_spec (q : list IBeatmap.t) (ts : list Task) (p : Progress.t) :
  dispatch q ts p =
    ((ts ++ List.map started q)%list, add_done (completed (List.map started q)) p).
Proof.
  revert ts p. induction q as [|m q IH]; intros ts p; cbn [dispatch List.map].
  - now rewrite app_nil_r, add_done_0.
  - rewrite IH, start_task, start_sink, add_done_add, <- app_assoc.
    now rewrite <- completed_app.
Qed.

Lemma drain_spec (ts : list Task) (p : Progress.t) :
  drain ts p =
    (List.map (fun t => Settled (outcome t)) ts,
     add_done (length ts - completed ts) p).
Proof.
  revert p. induction ts as [|t ts IH]; intros p.
  - cbn. now rewrite add_done_0.
  - pose proof (completed_le ts) as Hle.
    destruct t as [m request|m]; cbn [drain resume fst snd]; rewrite IH; cbn [fst snd List.map outcome].
    + f_equal. rewrite <- (add_done_0 p) at 1.
      rewrite incr_done_add_done, add_done_add. f_equal.
      rewrite completed_cons. cbn [settled length]. lia.
    + f_equal.
Qed.

Lemma joined_settled (ts : list Task) :
  joined (List.map (fun t => Settled (outcome t)) ts) = Some (List.map outcome ts).
Proof. induction ts as [|t ts IH]; [reflexivity|]. cbn. now rewrite IH. Qed.



(** The resolver as a function of its input. *)
Lemma ConvertToPlaylistLocal_unfold (playlist : IPlaylist.t) (progress : option Progress.t) :
  ConvertToPlaylistLocal playlist progress =
    finish playlist (List.map resolved (IPlaylist.maps playlist))
      (add_done (length (IPlaylist.maps playlist))
         (sink (begin playlist (default new_Progress progress)))).
Proof.
  unfold ConvertToPlaylistLocal.
  rewrite dispatch_spec. cbn [fst snd]. rewrite drain_spec. cbn [fst snd].
  rewrite joined_settled. cbn [default].
  rewrite add_done_add. cbn [begin tasks queue sink app].
  pose proof (completed_le (List.map started (IPlaylist.maps playlist))) as Hle.
  rewrite length_map in Hle. rewrite length_map, map_map. unfold id.
  f_equal. f_equal. lia.
Qed.








(** A configuration that has returned takes no step. *)
Lemma Returned_final (playlist : IPlaylist.t) (output : PlaylistLocal.t) (p : Progress.t)
    (c : Config) :
  ~ step playlist (Returned output p) c.
Proof. intros Hstep. inversion Hstep. Qed.




End ResolverFacts.

(** ** The resolver and the projection *)

Section Conversion.

Context {catalog : Catalog} {progressClass : ProgressClass}.

Lemma Forall2_map_same {A B : Type} (P : A -> B -> Prop) (f : A -> B) (l : list A) :
  (forall x, P x (f x)) -> Forall2 P l (List.map f l).
Proof. intros HP. induction l; cbn; constructor; auto. Qed.

(** C1.  Dispatch of the resolver: whatever sink is passed, the map made
    for a Zip entry carries the zip-unsupported error, for a LevelID entry
    the level-id-unsupported error, for an entry with any other tag the
    unknown-type error, and in these three cases [online] stays undefined;
    the map made for a Key entry has [online] set to what the catalog
    returns for the key printed in lowercase hexadecimal, or null when it
    returns nothing, and likewise for a Hash entry with the hash printed in
    lowercase hexadecimal. *)
Theorem ConvertToPlaylistLocal_dispatch (playlist : IPlaylist.t)
    (progress : option Progress.t) :
  Forall2
    (fun mapToConvert map =>
       match mapToConvert with
       | IBeatmap.OfZip _ _ =>
           PlaylistLocalMap.error map
             = Some PlaylistMapImportError.BeatmapTypeZipNotSupported /\
           PlaylistLocalMap.online map = undefined
       | IBeatmap.OfLevelID _ _ =>
           PlaylistLocalMap.error map
             = Some PlaylistMapImportError.BeatmapTypeLevelIdNotSupported /\
           PlaylistLocalMap.online map = undefined
       | IBeatmap.OfOther _ _ =>
           PlaylistLocalMap.error map
             = Some PlaylistMapImportError.BeatmapTypeUnknown /\
           PlaylistLocalMap.online map = undefined
       | IBeatmap.OfKey _ key =>
           PlaylistLocalMap.online map
             = match getBeatmapByKey (toString16 key) with
               | Some found => entry found
               | None => null
               end /\
           PlaylistLocalMap.error map = None /\
           all_chars is_lower_hex_char (toString16 key) = true /\
           parse16 (toString16 key) = Some key
       | IBeatmap.OfHash _ hash =>
           PlaylistLocalMap.online map
             = match getBeatmapByHash (toString_hex hash) with
               | Some found => entry found
               | None => null
               end /\
           PlaylistLocalMap.error map = None /\
           is_hex_encoding (toString_hex hash) = true /\
           from_hex (toString_hex hash) = hash
       end)
    (IPlaylist.maps playlist)
    (PlaylistLocal.maps (ConvertToPlaylistLocal playlist progress).1).
Proof.
  rewrite ConvertToPlaylistLocal_unfold. cbn [finish fst PlaylistLocal.maps].
  apply Forall2_map_same. intros [d key|d hash|d bytes|d levelID|d raw]; cbn.
  - repeat split.
    + apply HexFacts.toString16_lower_hex.
    + apply HexFacts.parse16_toString16.
  - repeat split.
    + apply HexFacts.is_hex_encoding_toString_hex.
    + apply HexFacts.from_hex_toString_hex.
  - now split.
  - now split.
  - now split.
Qed.



Lemma filterDefined_spec (l : list PlaylistLocalMap.t) :
  filterDefined (List.map toBlisterMap l) = List.map hashEntry (List.filter isPresent l).
Proof.
  induction l as [|m l IH]; [reflexivity|].
  cbn [List.map List.filter]. unfold toBlisterMap at 1, isPresent at 1, hashEntry at 1.
  destruct m as [d [| |e] err]; cbn; rewrite ?IH; try reflexivity.
  unfold hashEntry at 1. cbn.
  destruct (String.eqb_spec (BeatsaverBeatmap.hash e) "") as [->|_]; reflexivity.
Qed.

(** C3.  The save-direction projection copies title, author, description
    and cover; its maps are, in input order, one Hash-tagged entry for each
    map whose [online] is present (null or resolved), with that map's
    [dateAdded] and the entry's hash lowercased and decoded from hex, and no
    entry for a map whose [online] is undefined. *)
Theorem ConvertToPlaylistBlister_projection (playlist : PlaylistLocal.t) :
  let output := ConvertToPlaylistBlister playlist in
  IPlaylist.title output = PlaylistLocal.title playlist /\
  IPlaylist.author output = PlaylistLocal.author playlist /\
  IPlaylist.description output = PlaylistLocal.description playlist /\
  IPlaylist.cover output = PlaylistLocal.cover playlist /\
  IPlaylist.maps output
    = List.map hashEntry (List.filter isPresent (PlaylistLocal.maps playlist)) /\
  Forall (fun b => IBeatmap.type b = BeatmapType.Hash) (IPlaylist.maps output) /\
  length (IPlaylist.maps output)
    = length (List.filter isPresent (PlaylistLocal.maps playlist)).
Proof.
  cbn. rewrite filterDefined_spec. repeat split; try reflexivity.
  - apply Forall_forall. intros b Hb. apply list_elem_of_In, in_map_iff in Hb.
    now destruct Hb as (m & <- & _).
  - apply length_map.
Qed.

(** C10.  A map whose [online] is null is not dropped by the projection:
    it becomes a Hash-tagged entry with its date and an empty hash buffer,
    the decoding of the empty string. *)
Theorem ConvertToPlaylistBlister_null (playlist : PlaylistLocal.t) (i : nat)
    (map : PlaylistLocalMap.t) :
  PlaylistLocal.maps playlist !! i = Some map ->
  PlaylistLocalMap.online map = null ->
  hashOrEmpty (PlaylistLocalMap.online map) = "" /\
  toBlisterMap map = Some (IBeatmap.OfHash (PlaylistLocalMap.dateAdded map) (from_hex "")) /\
  from_hex "" = [] /\
  IBeatmap.OfHash (PlaylistLocalMap.dateAdded map) []
    ∈ IPlaylist.maps (ConvertToPlaylistBlister playlist).
Proof.
  intros Hi Hnull. unfold toBlisterMap. rewrite Hnull. cbn.
  repeat split; try reflexivity.
  rewrite filterDefined_spec. apply list_elem_of_In, in_map_iff.
  exists map. split.
  - unfold hashEntry. now rewrite Hnull.
  - apply filter_In. split.
    + apply list_elem_of_In, list_elem_of_lookup. eauto.
    + unfold isPresent. now rewrite Hnull.
Qed.

End Conversion.

(** ** Progress along the runs of the resolver *)

Section Runs.

Context {catalog : Catalog} {progressClass : ProgressClass}.


End Runs.

(** ** Loading and saving *)

Section Files.

Context {catalog : Catalog} {blister : Serializer} {legacy : LegacyReader}
  {pathlib : PathLib} {progressClass : ProgressClass}.

Lemma IsOldFormat_unfold (buffer : Buffer) (w : FileSystem) :
  IsOldFormat buffer w = (Return (negb (validateMagicNumber buffer)), w).
Proof.
  unfold IsOldFormat, try_catch, mbind, M_bind, mret, M_ret, throw.
  now destruct (validateMagicNumber buffer).
Qed.

(** C7.  The format detector returns false when the marker validates and
    true when the validation fails, for every buffer; it never throws and
    leaves the file system as it is. *)
Theorem IsOldFormat_total (buffer : Buffer) (w : FileSystem) :
  IsOldFormat buffer w = (Return (negb (validateMagicNumber buffer)), w) /\
  (validateMagicNumber buffer = true -> IsOldFormat buffer w = (Return false, w)) /\
  (validateMagicNumber buffer = false -> IsOldFormat buffer w = (Return true, w)).
Proof.
  rewrite IsOldFormat_unfold.
  destruct (validateMagicNumber buffer); cbn; repeat split; congruence.
Qed.

Ltac unfold_M :=
  unfold try_catch, orThrow, throw, fs_pathExists, fs_readFile, fs_writeFile, fs_unlink,
    mbind, M_bind, mret, M_ret in *.

Lemma Save_unfold (filepath : string) (playlist : PlaylistLocal.t) (w : FileSystem) :
  Save filepath playlist w =
    match serialize (ConvertToPlaylistBlister playlist) with
    | Some buffer =>
        if bool_decide (filepath ∈ unwritable w) then (Return false, w)
        else (Return true,
              {| files := <[filepath := buffer]> (files w); unwritable := unwritable w |})
    | None => (Return false, w)
    end.
Proof.
  unfold Save. unfold_M.
  destruct (serialize _) as [buffer|]; [|reflexivity].
  now destruct (bool_decide _).
Qed.

Lemma ConvertPlaylistFile_unfold (filepath : string) (playlist : PlaylistLocal.t)
    (w : FileSystem) :
  is_Some (files w !! filepath) ->
  ConvertPlaylistFile filepath playlist w =
    (Return tt,
     match serialize (ConvertToPlaylistBlister playlist) with
     | Some buffer =>
         if bool_decide (newFilepathOf filepath ∈ unwritable w) then w
         else {| files := delete filepath (<[newFilepathOf filepath := buffer]> (files w));
                 unwritable := unwritable w |}
     | None => w
     end).
Proof.
  intros [old Hold]. unfold ConvertPlaylistFile.
  unfold mbind at 1, M_bind at 1. rewrite Save_unfold.
  destruct (serialize _) as [buffer|]; [|reflexivity].
  destruct (bool_decide _); [reflexivity|].
  unfold fs_unlink. cbn [files unwritable].
  destruct (decide (newFilepathOf filepath = filepath)) as [->|Hne].
  - now rewrite lookup_insert_eq.
  - now rewrite lookup_insert_ne, Hold.
Qed.

Lemma readPlaylist_unfold (oldFormat : bool) (buffer : Buffer) (w : FileSystem) :
  readPlaylist oldFormat buffer w =
    if oldFormat then
      (Return (JSON_parse (string_of_list_byte buffer) ≫= convertLegacyPlaylist), w)
    else
      match deserialize buffer with
      | Some playlist => (Return (Some playlist), w)
      | None => (Throw DeserializeError, w)
      end.
Proof.
  unfold readPlaylist. destruct oldFormat; unfold_M.
  - destruct (JSON_parse _) as [l|]; cbn; [|reflexivity].
    now destruct (convertLegacyPlaylist l).
  - now destruct (deserialize buffer).
Qed.

(** [Load] case by case. *)
Lemma Load_unfold (filepath : string) (forceConvertIfNeeded : bool)
    (progress : option Progress.t) (w : FileSystem) :
  Load filepath forceConvertIfNeeded progress w =
    match files w !! filepath with
    | None => (Return None, w)
    | Some buffer =>
        if validateMagicNumber buffer then
          match deserialize buffer with
          | Some playlist =>
              (Return (Some (PlaylistLocal.set_path filepath
                               (ConvertToPlaylistLocal playlist progress).1)), w)
          | None => (Throw DeserializeError, w)
          end
        else
          match JSON_parse (string_of_list_byte buffer) ≫= convertLegacyPlaylist with
          | Some playlist =>
              let output := (ConvertToPlaylistLocal playlist progress).1 in
              (Return (Some (PlaylistLocal.set_path filepath output)),
               if forceConvertIfNeeded
               then (ConvertPlaylistFile filepath output w).2
               else w)
          | None => (Return None, w)
          end
    end.
Proof.
  unfold Load.
  unfold mbind at 1, M_bind at 1, fs_pathExists.
  destruct (files w !! filepath) as [buffer|] eqn:Hfile; cbn [negb bool_decide];
    [rewrite bool_decide_eq_true_2 by eauto|rewrite bool_decide_eq_false_2 by (intros [? ?]; discriminate)];
    cbn [negb]; [|reflexivity].
  unfold mbind at 1, M_bind at 1, fs_readFile. rewrite Hfile. cbn [orThrow]. unfold mret at 1, M_ret at 1.
  unfold mbind at 1, M_bind at 1.
  rewrite IsOldFormat_unfold.
  unfold mbind at 1, M_bind at 1. rewrite readPlaylist_unfold.
  destruct (validateMagicNumber buffer); cbn [negb andb].
  - now destruct (deserialize buffer).
  - destruct (JSON_parse _ ≫= convertLegacyPlaylist) as [playlist|]; [|reflexivity].
    unfold mbind, M_bind, mret, M_ret.
    destruct forceConvertIfNeeded; [|reflexivity].
    rewrite ConvertPlaylistFile_unfold by eauto. reflexivity.
Qed.






Lemma resolved_hashEntry (m : PlaylistLocalMap.t) :
  catalogServes m ->
  isPresent m = true /\
  dateAndHash (resolved (hashEntry m)) = dateAndHash m /\
  exists e, PlaylistLocalMap.online (resolved (hashEntry m)) = entry e /\
    PlaylistLocalMap.error (resolved (hashEntry m)) = None.
Proof.
  intros (e & Honline & Hhex & e' & Hfound & Hhash).
  unfold isPresent, hashEntry, dateAndHash. rewrite Honline.
  cbn. rewrite (HexFacts.toString_hex_from_hex_lower _ Hhex), Hfound. cbn.
  repeat split; [now rewrite Hhash|]. now exists e'.
Qed.

Lemma filter_all {A : Type} (f : A -> bool) (l : list A) :
  Forall (fun x => f x = true) l -> List.filter f l = l.
Proof. induction 1 as [|x l Hx _ IH]; cbn; [reflexivity|]. now rewrite Hx, IH. Qed.

(** C4.  Saving a playlist whose maps are all resolved to entries the
    catalog serves, then loading the saved file, gives a playlist with the
    same title, author, description and cover, and with the same dates and
    hashes map by map, every map resolved and none in error; the saved
    canonical form holds Hash-tagged entries only.  The serializer is
    assumed to encode the canonical form into a buffer whose marker
    validates and which decodes to that form, the path to be writable. *)
Theorem Load_Save_roundtrip (filepath : string) (playlist : PlaylistLocal.t)
    (forceConvertIfNeeded : bool) (progress : option Progress.t) (w : FileSystem)
    (buffer : Buffer) :
  Forall catalogServes (PlaylistLocal.maps playlist) ->
  serialize (ConvertToPlaylistBlister playlist) = Some buffer ->
  validateMagicNumber buffer = true ->
  deserialize buffer = Some (ConvertToPlaylistBlister playlist) ->
  filepath ∉ unwritable w ->
  exists saved loaded after,
    Save filepath playlist w = (Return true, saved) /\
    Load filepath forceConvertIfNeeded progress saved = (Return (Some loaded), after) /\
    PlaylistLocal.title loaded = PlaylistLocal.title playlist /\
    PlaylistLocal.author loaded = PlaylistLocal.author playlist /\
    PlaylistLocal.description loaded = PlaylistLocal.description playlist /\
    PlaylistLocal.cover loaded = PlaylistLocal.cover playlist /\
    List.map dateAndHash (PlaylistLocal.maps loaded)
      = List.map dateAndHash (PlaylistLocal.maps playlist) /\
    Forall (fun m => exists e, PlaylistLocalMap.online m = entry e /\
                               PlaylistLocalMap.error m = None)
      (PlaylistLocal.maps loaded) /\
    Forall (fun b => IBeatmap.type b = BeatmapType.Hash)
      (IPlaylist.maps (ConvertToPlaylistBlister playlist)).
Proof.
  intros Hserved Hser Hmagic Hdeser Hwritable.
  eexists _, _, _. split; [|split].
  - rewrite Save_unfold, Hser. now rewrite bool_decide_eq_false_2.
  - rewrite Load_unfold. cbn [files]. rewrite lookup_insert_eq, Hmagic, Hdeser. reflexivity.
  - rewrite ConvertToPlaylistLocal_unfold. cbn.
    rewrite filterDefined_spec.
    rewrite filter_all by (eapply Forall_impl; [exact Hserved|]; intros m Hm; now apply resolved_hashEntry).
    rewrite !map_map. repeat split.
    + apply map_ext_in. intros m Hm.
      apply list_elem_of_In in Hm. rewrite Forall_forall in Hserved.
      now apply resolved_hashEntry, Hserved.
    + apply Forall_forall. intros x Hx. apply list_elem_of_In, in_map_iff in Hx.
      destruct Hx as (m & <- & Hm). apply list_elem_of_In in Hm.
      rewrite Forall_forall in Hserved. now apply resolved_hashEntry, Hserved.
    + apply Forall_forall. intros x Hx. apply list_elem_of_In, in_map_iff in Hx.
      now destruct Hx as (m & <- & _).
Qed.

End Files.

(** ** How much of a hash is saved *)

Module HexLength.






End HexLength.

(** ** What saving and loading leave alone, and how they compose *)

Section Beyond.

Context {catalog : Catalog} {blister : Serializer} {legacy : LegacyReader}
  {pathlib : PathLib} {progressClass : ProgressClass}.

(** X1.  [Save] writes at its path only: every other file keeps its
    contents and the protected paths stay the same; after a save that
    reports success the path holds the encoding of the projection, after
    one that reports failure nothing has changed; and saving the same
    playlist at the same path again reports the same and changes nothing
    more. *)
Theorem Save_writes_only_filepath (filepath : string) (playlist : PlaylistLocal.t)
    (w : FileSystem) :
  let result := Save filepath playlist w in
  (forall q, q <> filepath -> files result.2 !! q = files w !! q) /\
  unwritable result.2 = unwritable w /\
  (result.1 = Return true ->
   files result.2 !! filepath = serialize (ConvertToPlaylistBlister playlist)) /\
  (result.1 = Return false -> result.2 = w) /\
  Save filepath playlist result.2 = result.
Proof.
  cbn zeta. rewrite Save_unfold.
  destruct (serialize (ConvertToPlaylistBlister playlist)) as [buffer|] eqn:Hser.
  - destruct (bool_decide (filepath ∈ unwritable w)) eqn:Hw; cbn [fst snd files unwritable].
    + repeat split; try discriminate. now rewrite Save_unfold, Hser, Hw.
    + split; [intros q Hq; now rewrite lookup_insert_ne by congruence|].
      split; [reflexivity|]. split; [intros _; apply lookup_insert_eq|].
      split; [discriminate|].
      rewrite Save_unfold, Hser. cbn [unwritable files]. rewrite Hw.
      now rewrite insert_insert_eq.
  - cbn [fst snd]. repeat split; try discriminate. now rewrite Save_unfold, Hser.
Qed.

(** X2.  [Load] leaves every file alone but the one it is given and the
    one at the derived path, and never changes which paths are
    protected. *)
Theorem Load_touches_two_paths (filepath : string) (forceConvertIfNeeded : bool)
    (progress : option Progress.t) (w : FileSystem) (q : string) :
  q <> filepath -> q <> newFilepathOf filepath ->
  files (Load filepath forceConvertIfNeeded progress w).2 !! q = files w !! q /\
  unwritable (Load filepath forceConvertIfNeeded progress w).2 = unwritable w.
Proof.
  intros Hq Hnew. rewrite Load_unfold.
  destruct (files w !! filepath) as [buffer|] eqn:Hfile; [|now split].
  destruct (validateMagicNumber buffer).
  - now destruct (deserialize buffer).
  - destruct (JSON_parse _ ≫= convertLegacyPlaylist) as [playlist|]; [|now split].
    cbn zeta. cbn [snd]. destruct forceConvertIfNeeded; [|now split].
    rewrite ConvertPlaylistFile_unfold by eauto. cbn [snd].
    destruct (serialize _) as [b|]; [|now split].
    destruct (bool_decide _); [now split|]. cbn [files unwritable].
    split; [|reflexivity].
    rewrite lookup_delete_ne by congruence. now rewrite lookup_insert_ne by congruence.
Qed.



Lemma resolved_hashEntry_reloaded (m : PlaylistLocalMap.t) :
  resolved (hashEntry m) = reloaded m.
Proof.
  unfold hashEntry, reloaded. destruct m as [d [| |e] err]; cbn; try reflexivity.
  now destruct (String.eqb_spec (BeatsaverBeatmap.hash e) "") as [->|_].
Qed.

(** X4.  Saving any playlist and loading the saved file, with a
    serializer that decodes what it encodes: the maps whose [online] is
    undefined, those in error among them, are gone; the others come back in
    order with their date and no error, each resolved again by a lookup
    under the hash that was written for it, which for a map that was not
    found is the empty hash; the metadata is kept, the path is the one
    loaded from, and the load changes no file. *)
Theorem Save_then_Load (filepath : string) (playlist : PlaylistLocal.t)
    (forceConvertIfNeeded : bool) (progress : option Progress.t) (w : FileSystem)
    (buffer : Buffer) :
  serialize (ConvertToPlaylistBlister playlist) = Some buffer ->
  validateMagicNumber buffer = true ->
  deserialize buffer = Some (ConvertToPlaylistBlister playlist) ->
  filepath ∉ unwritable w ->
  exists saved loaded,
    Save filepath playlist w = (Return true, saved) /\
    Load filepath forceConvertIfNeeded progress saved = (Return (Some loaded), saved) /\
    PlaylistLocal.maps loaded
      = List.map reloaded (List.filter isPresent (PlaylistLocal.maps playlist)) /\
    (length (PlaylistLocal.maps loaded) <= length (PlaylistLocal.maps playlist))%nat /\
    PlaylistLocal.title loaded = PlaylistLocal.title playlist /\
    PlaylistLocal.author loaded = PlaylistLocal.author playlist /\
    PlaylistLocal.description loaded = PlaylistLocal.description playlist /\
    PlaylistLocal.cover loaded = PlaylistLocal.cover playlist /\
    PlaylistLocal.path loaded = Some filepath.
Proof.
  intros Hser Hmagic Hdeser Hwritable.
  eexists _, _. split; [|split].
  - rewrite Save_unfold, Hser. now rewrite bool_decide_eq_false_2.
  - rewrite Load_unfold. cbn [files]. rewrite lookup_insert_eq, Hmagic, Hdeser. reflexivity.
  - rewrite ConvertToPlaylistLocal_unfold. cbn.
    rewrite filterDefined_spec, map_map.
    assert (Hmaps : List.map (fun m => resolved (hashEntry m))
                      (List.filter isPresent (PlaylistLocal.maps playlist))
                    = List.map reloaded (List.filter isPresent (PlaylistLocal.maps playlist))).
    { apply map_ext. intros m. apply resolved_hashEntry_reloaded. }
    rewrite Hmaps, length_map. split; [reflexivity|].
    split; [apply List.filter_length_le|]. repeat split.
Qed.





(** X8.  Two entries are looked up under the same request only if they
    are both Key entries with the same key or both Hash entries with the
    same hash: printing in hexadecimal loses nothing. *)
Theorem requests_are_injective (m1 m2 : IBeatmap.t) (map1 map2 : PlaylistLocalMap.t)
    (request : Lookup) :
  started m1 = Awaiting map1 request ->
  started m2 = Awaiting map2 request ->
  match m1, m2 with
  | IBeatmap.OfKey _ k1, IBeatmap.OfKey _ k2 => k1 = k2
  | IBeatmap.OfHash _ h1, IBeatmap.OfHash _ h2 => h1 = h2
  | _, _ => False
  end.
Proof.
  destruct m1 as [d1 k1|d1 h1|d1 b1|d1 l1|d1 r1], m2 as [d2 k2|d2 h2|d2 b2|d2 l2|d2 r2];
    cbn; intros [= _ <-] H2; try discriminate; inversion H2 as [[Hd Hq]].
  - apply (f_equal parse16) in Hq. rewrite !HexFacts.parse16_toString16 in Hq. congruence.
  - apply (f_equal from_hex) in Hq. now rewrite !HexFacts.from_hex_toString_hex in Hq.
Qed.

Lemma isPresent_resolved (m : IBeatmap.t) : isPresent (resolved m) = isLookup m.
Proof.
  destruct m as [d k|d h|d b|d lv|d r]; cbn; try reflexivity.
  - now destruct (getBeatmapByKey _).
  - now destruct (getBeatmapByHash _).
Qed.

Lemma hashEntry_resolved (m : IBeatmap.t) :
  isLookup m = true -> hashEntry (resolved m) = rehashed m.
Proof.
  destruct m as [d k|d h|d b|d lv|d r]; cbn; try discriminate; intros _;
    unfold hashEntry, rehashed; cbn.
  - now destruct (getBeatmapByKey _).
  - now destruct (getBeatmapByHash _).
Qed.

Lemma project_resolved_maps (l : list IBeatmap.t) :
  List.map hashEntry (List.filter isPresent (List.map resolved l))
    = List.map rehashed (List.filter isLookup l).
Proof.
  induction l as [|m l IH]; [reflexivity|].
  cbn [List.map List.filter]. rewrite isPresent_resolved.
  destruct (isLookup m) eqn:Hm; cbn [List.map]; rewrite IH; [|reflexivity].
  now rewrite hashEntry_resolved.
Qed.

(** X9.  Resolving a canonical playlist and projecting the result back,
    what a load followed by a save writes: the metadata is kept; entries
    that are neither Key nor Hash are gone; each Key or Hash entry becomes,
    in order and with its date, a Hash entry holding the hash of the catalog
    entry found for it, or the empty hash when the catalog found
    nothing. *)
Theorem resolve_then_project (playlist : IPlaylist.t) (progress : option Progress.t) :
  let saved := ConvertToPlaylistBlister (ConvertToPlaylistLocal playlist progress).1 in
  IPlaylist.title saved = IPlaylist.title playlist /\
  IPlaylist.author saved = IPlaylist.author playlist /\
  IPlaylist.description saved = IPlaylist.description playlist /\
  IPlaylist.cover saved = IPlaylist.cover playlist /\
  IPlaylist.maps saved
    = List.map rehashed (List.filter isLookup (IPlaylist.maps playlist)) /\
  (length (IPlaylist.maps saved) <= length (IPlaylist.maps playlist))%nat.
Proof.
  cbn zeta. rewrite ConvertToPlaylistLocal_unfold. cbn.
  rewrite filterDefined_spec, project_resolved_maps, length_map.
  repeat split. apply List.filter_length_le.
Qed.

Lemma rehashed_served (l : list IBeatmap.t) :
  Forall servedByHash l -> List.map rehashed (List.filter isLookup l) = l.
Proof.
  induction 1 as [|m l Hm _ IH]; [reflexivity|].
  destruct m as [d k|d h|d b|d lv|d r]; cbn in Hm; try contradiction.
  destruct Hm as (e & Hfound & Hhash).
  cbn [List.filter isLookup List.map]. rewrite IH. f_equal.
  unfold rehashed. cbn. rewrite Hfound, Hhash.
  now rewrite HexFacts.from_hex_toString_hex.
Qed.

(** X10.  A canonical playlist of Hash entries, each known to the catalog
    under its own hash up to case, is written back as it was read:
    resolving it and projecting the result gives the same playlist. *)
Theorem resolve_then_project_fixed (playlist : IPlaylist.t) (progress : option Progress.t) :
  Forall servedByHash (IPlaylist.maps playlist) ->
  ConvertToPlaylistBlister (ConvertToPlaylistLocal playlist progress).1 = playlist.
Proof.
  intros Hserved. rewrite ConvertToPlaylistLocal_unfold.
  destruct playlist as [t a d c l]. unfold ConvertToPlaylistBlister. cbn in *.
  now rewrite filterDefined_spec, project_resolved_maps, rehashed_served.
Qed.

End Beyond.

(** ** The loader in the sample environment *)

#[local] Existing Instances Sample.catalog Sample.blister Sample.legacy Sample.pathlib
  Sample.progressClass.







Lemma ConvertToPlaylistBlister_null_witness :
  PlaylistLocal.maps Sample.withNull !! 1%nat
    = Some {| PlaylistLocalMap.dateAdded := 6; PlaylistLocalMap.online := null;
              PlaylistLocalMap.error := None |} /\
  IBeatmap.OfHash 6 [] ∈ IPlaylist.maps (ConvertToPlaylistBlister Sample.withNull).
Proof.
  split; [reflexivity|].
  apply (ConvertToPlaylistBlister_null Sample.withNull 1
           {| PlaylistLocalMap.dateAdded := 6; PlaylistLocalMap.online := null;
              PlaylistLocalMap.error := None |}); reflexivity.
Defined.



Lemma Load_Save_roundtrip_witness :
  Forall catalogServes (PlaylistLocal.maps Sample.loaded) /\
  serialize (ConvertToPlaylistBlister Sample.loaded) = Some Sample.image /\
  validateMagicNumber Sample.image = true /\
  deserialize Sample.image = Some (ConvertToPlaylistBlister Sample.loaded) /\
  ("music/copy.blist" ∉ unwritable Sample.disk) /\
  exists saved loaded after,
    Save "music/copy.blist" Sample.loaded Sample.disk = (Return true, saved) /\
    Load "music/copy.blist" true None saved = (Return (Some loaded), after) /\
    List.map dateAndHash (PlaylistLocal.maps loaded) = [(1700000000, Some "ab12")].
Proof.
  assert (Hserved : Forall catalogServes (PlaylistLocal.maps Sample.loaded)).
  { repeat constructor. exists Sample.song. repeat split. now exists Sample.song. }
  assert (Hwritable : "music/copy.blist" ∉ unwritable Sample.disk).
  { cbn. intros Hin. apply elem_of_singleton in Hin. discriminate. }
  assert (Hser : serialize (ConvertToPlaylistBlister Sample.loaded) = Some Sample.image)
    by reflexivity.
  assert (Hdeser : deserialize Sample.image = Some (ConvertToPlaylistBlister Sample.loaded))
    by reflexivity.
  repeat (split; [first [exact Hserved | exact Hwritable | reflexivity]|]).
  destruct (Load_Save_roundtrip "music/copy.blist" Sample.loaded true None Sample.disk
              Sample.image Hserved Hser eq_refl Hdeser Hwritable)
    as (saved & loaded & after & HSave & HLoad & _ & _ & _ & _ & Hmaps & _).
  exists saved, loaded, after. repeat split; assumption.
Defined.

(** ** Saving and loading in the sample environment *)

Lemma Load_touches_two_paths_witness :
  "music/new.blist" <> "music/old.json" /\
  "music/new.blist" <> newFilepathOf "music/old.json" /\
  files (Load "music/old.json" true None Sample.disk).2 !! "music/new.blist"
    = Some Sample.image.
Proof.
  assert (H1 : "music/new.blist" <> "music/old.json") by discriminate.
  assert (H2 : "music/new.blist" <> newFilepathOf "music/old.json")
    by (vm_compute; discriminate).
  split; [exact H1|]. split; [exact H2|].
  destruct (Load_touches_two_paths "music/old.json" true None Sample.disk
              "music/new.blist" H1 H2) as [-> _].
  vm_compute. reflexivity.
Defined.

Lemma Save_then_Load_witness :
  serialize (ConvertToPlaylistBlister Misnamed.partly) = Some Sample.image /\
  validateMagicNumber Sample.image = true /\
  deserialize Sample.image = Some (ConvertToPlaylistBlister Misnamed.partly) /\
  ("music/copy.blist" ∉ unwritable Sample.disk) /\
  exists saved loaded,
    Save "music/copy.blist" Misnamed.partly Sample.disk = (Return true, saved) /\
    Load "music/copy.blist" false None saved = (Return (Some loaded), saved) /\
    PlaylistLocal.maps loaded
      = [{| PlaylistLocalMap.dateAdded := 1700000000;
            PlaylistLocalMap.online := entry Sample.song;
            PlaylistLocalMap.error := None |}].
Proof.
  assert (Hser : serialize (ConvertToPlaylistBlister Misnamed.partly) = Some Sample.image)
    by reflexivity.
  assert (Hdeser : deserialize Sample.image = Some (ConvertToPlaylistBlister Misnamed.partly))
    by reflexivity.
  assert (Hwritable : "music/copy.blist" ∉ unwritable Sample.disk).
  { cbn. intros Hin. apply elem_of_singleton in Hin. discriminate. }
  split; [exact Hser|]. split; [reflexivity|]. split; [exact Hdeser|].
  split; [exact Hwritable|].
  destruct (Save_then_Load "music/copy.blist" Misnamed.partly false None Sample.disk
              Sample.image Hser eq_refl Hdeser Hwritable)
    as (saved & loaded & HSave & HLoad & Hmaps & _).
  exists saved, loaded. split; [exact HSave|]. split; [exact HLoad|].
  rewrite Hmaps. reflexivity.
Defined.




Lemma requests_are_injective_witness :
  started (IBeatmap.OfKey 1 31)
    = Awaiting {| PlaylistLocalMap.dateAdded := 1; PlaylistLocalMap.online := undefined;
                  PlaylistLocalMap.error := None |} (ByKey "1f") /\
  started (IBeatmap.OfKey 6 31)
    = Awaiting {| PlaylistLocalMap.dateAdded := 6; PlaylistLocalMap.online := undefined;
                  PlaylistLocalMap.error := None |} (ByKey "1f") /\
  31%N = 31%N.
Proof.
  split; [reflexivity|]. split; [reflexivity|].
  exact (requests_are_injective (IBeatmap.OfKey 1 31) (IBeatmap.OfKey 6 31) _ _ _
           eq_refl eq_refl).
Defined.

Lemma resolve_then_project_fixed_witness :
  Forall servedByHash (IPlaylist.maps Sample.canonical) /\
  ConvertToPlaylistBlister (ConvertToPlaylistLocal Sample.canonical None).1
    = Sample.canonical.
Proof.
  assert (Hserved : Forall servedByHash (IPlaylist.maps Sample.canonical)).
  { repeat constructor. exists Sample.song. split; reflexivity. }
  split; [exact Hserved|].
  exact (resolve_then_project_fixed Sample.canonical None Hserved).
Defined.
